(** * typing-examples: a model of the result variants and the cross-referencing factories

    The repository holds three Python snippets:

    - [typing_examples/type_narrowing_generic_result.py]: the dataclasses
      [Ok] and [Err], the function [interface] and a module-level
      narrowing example;
    - [typing_examples/circular_imports/file_a.py] and
      [examples/circular_imports/file_b.py]: the classes [A] and [B] with
      the class methods [from_b] and [from_a].

    Python objects live in a store and are handled through references, so
    the embedding threads a store through every call: a computation is a
    function from the state to an outcome (a value, or a raised exception)
    and a new state. *)

From Stdlib Require Import ZArith.
From stdpp Require Import gmap strings list fin_maps.

Local Open Scope string_scope.
Local Open Scope Z_scope.
Local Open Scope list_scope.

(** ** Values and objects *)

(** Addresses of the store. *)
Abbreviation addr := nat (only parsing).

(** [None], [True]/[False] and the integers are immediate values; every
    other object is reached through its address in the store. [PyStr] is a
    string: the program builds none of its own, the only strings are the
    messages of the errors the interpreter raises, and their text is not
    modelled. *)
Inductive pyval :=
  | PyNone
  | PyBool (b : bool)
  | PyInt (n : Z)
  | PyStr
  | PyRef (a : addr).

#[global] Instance pyval_eq_dec : EqDecision pyval.
Proof. solve_decision. Defined.

(** The classes the three files define or instantiate, and the built-in
    exceptions a call or an attribute access can raise. *)
Inductive cls :=
  | ClsA
  | ClsB
  | ClsOk
  | ClsErr
  | ClsValueError
  | ClsTypeError
  | ClsAttributeError
  | ClsFrozenInstanceError.

#[global] Instance cls_eq_dec : EqDecision cls.
Proof. solve_decision. Defined.

(** Subclasses of [BaseException]. *)
Definition is_exception (c : cls) : bool :=
  match c with
  | ClsValueError | ClsTypeError | ClsAttributeError
  | ClsFrozenInstanceError => true
  | _ => false
  end.

(** An object: its class, the [args] tuple of a [BaseException] instance
    (empty for every other class) and its instance dictionary. *)
Record object := Object {
  ob_class : cls;
  ob_args : list pyval;
  ob_dict : gmap string pyval
}.

#[global] Instance object_eq_dec : EqDecision object.
Proof. solve_decision. Defined.

(** ** Dataclasses *)

(** The annotations that occur on the fields of [Ok] and [Err]. *)
Inductive annotation :=
  | AnnT
  | AnnLiteral (v : pyval)
  | AnnBaseException.

Record field := Field {
  f_name : string;
  f_type : annotation;
  f_default : option pyval
}.

Record dataclass := Dataclass {
  dc_fields : list field;
  dc_frozen : bool
}.

(** [@dataclass class Ok]: [response: T], [error: Literal[None] = None],
    [is_success: Literal[True] = True]. *)
Definition Ok_fields : list field :=
  [ Field "response" AnnT None;
    Field "error" (AnnLiteral PyNone) (Some PyNone);
    Field "is_success" (AnnLiteral (PyBool true)) (Some (PyBool true)) ].

(** [@dataclass class Err]: [error: BaseException],
    [response: Literal[None] = None],
    [is_success: Literal[False] = False]. *)
Definition Err_fields : list field :=
  [ Field "error" AnnBaseException None;
    Field "response" (AnnLiteral PyNone) (Some PyNone);
    Field "is_success" (AnnLiteral (PyBool false)) (Some (PyBool false)) ].

(** Both classes are decorated with a bare [@dataclass]: [frozen] keeps
    its default, [False]. *)
Definition dataclass_of (c : cls) : option dataclass :=
  match c with
  | ClsOk => Some (Dataclass Ok_fields false)
  | ClsErr => Some (Dataclass Err_fields false)
  | _ => None
  end.

(** The generated [__init__(self, f1, f2=d2, ...)]: positional arguments
    fill the fields in declaration order, keyword arguments by name, the
    defaults fill what is left. [None] stands for the [TypeError] of a call
    that does not fit the signature. *)
Fixpoint bind_positional (fs : list field) (args : list pyval)
    : option (gmap string pyval) :=
  match args, fs with
  | [], _ => Some ∅
  | _ :: _, [] => None
  | v :: args', f :: fs' =>
      d ← bind_positional fs' args'; Some (<[f_name f := v]> d)
  end.

Definition bind_keywords (fs : list field) (d kwargs : gmap string pyval)
    : option (gmap string pyval) :=
  if decide (map_Forall (λ k _, k ∈ f_name <$> fs ∧ d !! k = None) kwargs)
  then Some (kwargs ∪ d)
  else None.

Fixpoint fill_defaults (fs : list field) (d : gmap string pyval)
    : option (gmap string pyval) :=
  match fs with
  | [] => Some d
  | f :: fs' =>
      match d !! f_name f, f_default f with
      | Some _, _ => fill_defaults fs' d
      | None, Some v => fill_defaults fs' (<[f_name f := v]> d)
      | None, None => None
      end
  end.

Definition bind_arguments (fs : list field) (args : list pyval)
    (kwargs : gmap string pyval) : option (gmap string pyval) :=
  d ← bind_positional fs args;
  d' ← bind_keywords fs d kwargs;
  fill_defaults fs d'.

(** ** The store and the computations over it *)

(** An attribute read, recorded in program order. *)
Inductive event := EvLoad (a : addr) (attr : string).

#[global] Instance event_eq_dec : EqDecision event.
Proof. solve_decision. Defined.

Record state := State {
  heap : list object;
  trace : list event
}.

#[global] Instance state_eq_dec : EqDecision state.
Proof. solve_decision. Defined.

Definition empty_state : state := State [] [].

(** A call returns a value or raises the exception object at an address. *)
Inductive outcome (R : Type) :=
  | Normal (x : R)
  | Raised (e : addr).
Arguments Normal {R} x.
Arguments Raised {R} e.

Definition M (R : Type) : Type := state → outcome R * state.

#[global] Instance M_ret : MRet M := λ R x s, (Normal x, s).

#[global] Instance M_bind : MBind M := λ R1 R2 k c s,
  match c s with
  | (Normal x, s') => k x s'
  | (Raised e, s') => (Raised e, s')
  end.

(** Allocation: the new object gets the next address. *)
Definition alloc (o : object) : M addr := λ s,
  (Normal (length (heap s)), State (heap s ++ [o]) (trace s)).

(** [raise c(message)], as the interpreter does for its own errors: the
    exception object is created with the message as its only argument,
    then raised. *)
Definition raise {R : Type} (c : cls) : M R := λ s,
  (Raised (length (heap s)),
   State (heap s ++ [Object c [PyStr] ∅]) (trace s)).

(** Calling a class object. A dataclass runs its generated [__init__]; an
    exception class stores its positional arguments in [args] and accepts
    no keyword; a plain class inherits [object.__init__], which accepts no
    argument at all. *)
Definition call (c : cls) (args : list pyval) (kwargs : gmap string pyval)
    : M pyval :=
  match dataclass_of c with
  | Some dc =>
      match bind_arguments (dc_fields dc) args kwargs with
      | Some d => a ← alloc (Object c [] d); mret (PyRef a)
      | None => raise ClsTypeError
      end
  | None =>
      if is_exception c then
        if decide (kwargs = ∅)
        then a ← alloc (Object c args ∅); mret (PyRef a)
        else raise ClsTypeError
      else
        if decide (args = [] ∧ kwargs = ∅)
        then a ← alloc (Object c [] ∅); mret (PyRef a)
        else raise ClsTypeError
  end.

(** [o.name], for the data attributes kept in the instance dictionary: the
    program reads no other, and every instance its constructors build
    carries all its fields there. Methods and class attributes are not
    modelled; a name the dictionary lacks raises [AttributeError]. *)
Definition getattr (o : pyval) (name : string) : M pyval := λ s,
  match o with
  | PyRef a =>
      match heap s !! a with
      | Some ob =>
          match ob_dict ob !! name with
          | Some v => (Normal v, State (heap s) (trace s ++ [EvLoad a name]))
          | None => raise ClsAttributeError s
          end
      | None => raise ClsAttributeError s
      end
  | _ => raise ClsAttributeError s
  end.

Definition frozen (c : cls) : bool :=
  match dataclass_of c with
  | Some dc => dc_frozen dc
  | None => false
  end.

(** [o.name = v]. On an instance of a dataclass that is not frozen (and on
    a plain instance) the assignment stores into the instance dictionary;
    a frozen dataclass raises [FrozenInstanceError]. *)
Definition setattr (o : pyval) (name : string) (v : pyval) : M unit := λ s,
  match o with
  | PyRef a =>
      match heap s !! a with
      | Some ob =>
          if frozen (ob_class ob) then raise ClsFrozenInstanceError s
          else
            (Normal tt,
             State (<[a := Object (ob_class ob) (ob_args ob)
                             (<[name := v]> (ob_dict ob))]> (heap s))
                   (trace s))
      | None => raise ClsAttributeError s
      end
  | _ => raise ClsAttributeError s
  end.

(** [x is True] *)
Definition is_True (x : pyval) : bool :=
  match x with
  | PyBool true => true
  | _ => false
  end.

(** ** typing_examples/type_narrowing_generic_result.py *)

Definition Ok : list pyval → gmap string pyval → M pyval := call ClsOk.
Definition Err : list pyval → gmap string pyval → M pyval := call ClsErr.
Definition ValueError : list pyval → gmap string pyval → M pyval :=
  call ClsValueError.

(** [def interface(value: int) -> Ok[int] | Err[int]:
       return Ok(response=value) if value > 10 else Err(error=ValueError())] *)
Definition interface (value : Z) : M pyval :=
  if decide (value > 10)
  then Ok [] {["response" := PyInt value]}
  else e ← ValueError [] ∅; Err [] {["error" := e]}.

(** The module-level [if result.is_success is True: result.response
    else: result.error]; both branches are expression statements, whose
    value is computed and dropped. *)
Definition narrowing (result : pyval) : M unit :=
  t ← getattr result "is_success";
  if is_True t
  then _ ← getattr result "response"; mret tt
  else _ ← getattr result "error"; mret tt.

(** Running the module: [result = interface(12)], then the branch. The
    returned map holds the module-level binding. *)
Definition module_main : M (gmap string pyval) :=
  result ← interface 12;
  _ ← narrowing result;
  mret {["result" := result]}.

(** ** circular_imports/file_a.py and file_b.py *)

(** [@classmethod def from_b(cls, b: B) -> Self: return cls()] *)
Definition from_b (cls : cls) (b : pyval) : M pyval := call cls [] ∅.

(** [@classmethod def from_a(cls, a: A) -> Self: return cls()] *)
Definition from_a (cls : cls) (a : pyval) : M pyval := call cls [] ∅.

(** ** Reading the store *)

Definition deref (s : state) (v : pyval) : option object :=
  match v with
  | PyRef a => heap s !! a
  | _ => None
  end.

Definition field_of (s : state) (v : pyval) (name : string) : option pyval :=
  ob ← deref s v; ob_dict ob !! name.

(** [type(v) is c] *)
Definition isinstance (s : state) (v : pyval) (c : cls) : bool :=
  match deref s v with
  | Some ob => bool_decide (ob_class ob = c)
  | None => false
  end.

(** The instance dictionaries the two constructors build from a payload. *)
Definition Ok_dict (x : pyval) : gmap string pyval :=
  {[ "response" := x; "error" := PyNone; "is_success" := PyBool true ]}.

Definition Err_dict (e : pyval) : gmap string pyval :=
  {[ "error" := e; "response" := PyNone; "is_success" := PyBool false ]}.

(** ** The invariant of the result variants *)

(** A payload field is populated when it holds something else than
    [None]. *)
Definition populated (s : state) (r : pyval) (name : string) : bool :=
  match field_of s r name with
  | Some PyNone | None => false
  | Some _ => true
  end.

(** [r.is_success is True] *)
Definition discriminant (s : state) (r : pyval) : bool :=
  match field_of s r "is_success" with
  | Some t => is_True t
  | None => false
  end.

(** Exactly one of [response] and [error] is populated, and the
    discriminant is [True] exactly when it is [response]. *)
Definition result_invariant (s : state) (r : pyval) : bool :=
  xorb (populated s r "response") (populated s r "error")
  && eqb (discriminant s r) (populated s r "response").

(** ** What a call leaves of the store *)

(** The objects of [s] are all in [s'], each at its address and unchanged;
    [s'] may hold new ones after them. *)
Definition extends (s s' : state) : Prop := heap s `prefix_of` heap s'.

Definition framed {R : Type} (c : M R) : Prop := ∀ s, extends s (c s).2.

(** ** Declared types *)

(** [v] is a value of the annotated type. *)
Definition conforms (s : state) (ann : annotation) (v : pyval) : bool :=
  match ann with
  | AnnT => true
  | AnnLiteral l => bool_decide (v = l)
  | AnnBaseException =>
      match deref s v with
      | Some ob => is_exception (ob_class ob)
      | None => false
      end
  end.

(** The annotation a class declares for an attribute. *)
Definition declared (c : cls) (name : string) : option annotation :=
  dc ← dataclass_of c;
  f ← List.find (λ f, bool_decide (f_name f = name)) (dc_fields dc);
  Some (f_type f).

(** [o.name = v] respects the declared type of the attribute. *)
Definition well_typed_store (s : state) (o : pyval) (name : string)
    (v : pyval) : bool :=
  match deref s o with
  | Some ob =>
      match declared (ob_class ob) name with
      | Some ann => conforms s ann v
      | None => false
      end
  | None => false
  end.

(** The [is_success] of [r] holds a value of its declared type. *)
Definition well_typed_discriminant (s : state) (r : pyval) : bool :=
  match deref s r with
  | Some ob =>
      match declared (ob_class ob) "is_success", ob_dict ob !! "is_success" with
      | Some ann, Some t => conforms s ann t
      | _, _ => false
      end
  | None => false
  end.

(** Every field the class of [r] declares holds a value of its declared
    type. *)
Definition well_typed_instance (s : state) (r : pyval) : bool :=
  match deref s r with
  | Some ob =>
      match dataclass_of (ob_class ob) with
      | Some dc =>
          forallb (λ f, match ob_dict ob !! f_name f with
                        | Some v => conforms s (f_type f) v
                        | None => false
                        end) (dc_fields dc)
      | None => false
      end
  | None => false
  end.

(** The fields of [r] annotated with a [Literal] hold that literal. *)
Definition literals_hold (s : state) (r : pyval) : bool :=
  match deref s r with
  | Some ob =>
      match dataclass_of (ob_class ob) with
      | Some dc =>
          forallb (λ f, match f_type f with
                        | AnnLiteral l =>
                            bool_decide (ob_dict ob !! f_name f = Some l)
                        | _ => true
                        end) (dc_fields dc)
      | None => false
      end
  | None => false
  end.

(** The payload of [r], the field that is not annotated with a [Literal]
    ([response] in an [Ok], [error] in an [Err]), is not [None]. *)
Definition payload_present (s : state) (r : pyval) : bool :=
  match deref s r with
  | Some ob =>
      match dataclass_of (ob_class ob) with
      | Some dc =>
          forallb (λ f, match f_type f with
                        | AnnLiteral _ => true
                        | _ => match ob_dict ob !! f_name f with
                               | Some PyNone | None => false
                               | Some _ => true
                               end
                        end) (dc_fields dc)
      | None => false
      end
  | None => false
  end.

(** ** Equality of objects *)

(** The comparison of the fields one after the other, stopping at the
    first pair that differs. *)
Fixpoint fields_eq (cmp : field → option bool) (fs : list field)
    : option bool :=
  match fs with
  | [] => Some true
  | f :: fs' =>
      match cmp f with
      | Some true => fields_eq cmp fs'
      | Some false => Some false
      | None => None
      end
  end.

(** [x == y]. A bare [@dataclass] generates [__eq__]: two instances of the
    same dataclass are equal when their fields are, in declaration order;
    every other object, an exception among them, is equal to itself only.
    [True] and [False] compare as the integers 1 and 0. [None] as a result
    stands for what is not determined here: the depth is used up, a field
    is missing, a reference dangles, or two strings are compared. *)
Fixpoint py_eq (depth : nat) (h : list object) (x y : pyval) : option bool :=
  match x, y with
  | PyNone, PyNone => Some true
  | PyBool b1, PyBool b2 => Some (eqb b1 b2)
  | PyInt n1, PyInt n2 => Some (n1 =? n2)
  | PyBool b, PyInt n | PyInt n, PyBool b => Some (Z.b2z b =? n)
  | PyStr, PyStr => None
  | PyRef a1, PyRef a2 =>
      if decide (a1 = a2) then Some true
      else
        match h !! a1, h !! a2 with
        | Some o1, Some o2 =>
            match dataclass_of (ob_class o1) with
            | Some dc =>
                if decide (ob_class o1 = ob_class o2) then
                  match depth with
                  | O => None
                  | S depth' =>
                      fields_eq
                        (λ f, match ob_dict o1 !! f_name f,
                                    ob_dict o2 !! f_name f with
                              | Some u, Some w => py_eq depth' h u w
                              | _, _ => None
                              end)
                        (dc_fields dc)
                  end
                else Some false
            | None => Some false
            end
        | _, _ => None
        end
  | _, _ => Some false
  end.

(** ** Contents of a value *)

#[local] Unset Elimination Schemes.

(** What a value denotes in a store, references followed down to a depth:
    the contents of the objects, without their addresses. *)
Inductive datum :=
  | DNone
  | DBool (b : bool)
  | DInt (n : Z)
  | DStr
  | DObject (c : cls) (args : list datum) (d : gmap string datum)
  | DUnknown.

#[local] Set Elimination Schemes.

Fixpoint reify (depth : nat) (h : list object) (v : pyval) : datum :=
  match v with
  | PyNone => DNone
  | PyBool b => DBool b
  | PyInt n => DInt n
  | PyStr => DStr
  | PyRef a =>
      match depth with
      | O => DUnknown
      | S depth' =>
          match h !! a with
          | Some ob =>
              DObject (ob_class ob) (reify depth' h <$> ob_args ob)
                      (reify depth' h <$> ob_dict ob)
          | None => DUnknown
          end
      end
  end.

(** The contents expected of the result of [interface value], the variant
    and its payload, to compare with what the code builds. *)
Definition interface_datum (value : Z) : datum :=
  if decide (value > 10)
  then DObject ClsOk []
         {[ "response" := DInt value; "error" := DNone;
            "is_success" := DBool true ]}
  else DObject ClsErr []
         {[ "error" := DObject ClsValueError [] ∅; "response" := DNone;
            "is_success" := DBool false ]}.

(** * Properties *)

(** ** The constructors, step by step *)

Lemma deref_alloc (h : list object) (t : list event) (o : object) :
  deref (State (h ++ [o]) t) (PyRef (length h)) = Some o.
Proof. simpl. apply list_lookup_middle. reflexivity. Qed.

Lemma deref_alloc_old (h : list object) (t : list event) (o ob : object)
    (a : addr) :
  h !! a = Some ob → deref (State (h ++ [o]) t) (PyRef a) = Some ob.
Proof. intros H. simpl. by apply lookup_app_l_Some. Qed.

Lemma Ok_keyword (x : pyval) (s : state) :
  Ok [] {["response" := x]} s =
    (Normal (PyRef (length (heap s))),
     State (heap s ++ [Object ClsOk [] (Ok_dict x)]) (trace s)).
Proof.
  unfold Ok, call. cbn [dataclass_of dc_fields].
  replace (bind_arguments Ok_fields [] {["response" := x]})
    with (Some (Ok_dict x)) by (vm_compute; reflexivity).
  reflexivity.
Qed.

Lemma Ok_positional (x : pyval) (s : state) :
  Ok [x] ∅ s =
    (Normal (PyRef (length (heap s))),
     State (heap s ++ [Object ClsOk [] (Ok_dict x)]) (trace s)).
Proof.
  unfold Ok, call. cbn [dataclass_of dc_fields].
  replace (bind_arguments Ok_fields [x] ∅)
    with (Some (Ok_dict x)) by (vm_compute; reflexivity).
  reflexivity.
Qed.

Lemma Err_keyword (e : pyval) (s : state) :
  Err [] {["error" := e]} s =
    (Normal (PyRef (length (heap s))),
     State (heap s ++ [Object ClsErr [] (Err_dict e)]) (trace s)).
Proof.
  unfold Err, call. cbn [dataclass_of dc_fields].
  replace (bind_arguments Err_fields [] {["error" := e]})
    with (Some (Err_dict e)) by (vm_compute; reflexivity).
  reflexivity.
Qed.

Lemma Err_positional (e : pyval) (s : state) :
  Err [e] ∅ s =
    (Normal (PyRef (length (heap s))),
     State (heap s ++ [Object ClsErr [] (Err_dict e)]) (trace s)).
Proof.
  unfold Err, call. cbn [dataclass_of dc_fields].
  replace (bind_arguments Err_fields [e] ∅)
    with (Some (Err_dict e)) by (vm_compute; reflexivity).
  reflexivity.
Qed.

Lemma ValueError_no_args (s : state) :
  ValueError [] ∅ s =
    (Normal (PyRef (length (heap s))),
     State (heap s ++ [Object ClsValueError [] ∅]) (trace s)).
Proof. reflexivity. Qed.

(** The two paths of [interface], as equations on the state. *)
Lemma interface_gt (value : Z) (s : state) :
  value > 10 →
  interface value s =
    (Normal (PyRef (length (heap s))),
     State (heap s ++ [Object ClsOk [] (Ok_dict (PyInt value))]) (trace s)).
Proof.
  intros Hv. unfold interface. case_decide; [|lia]. apply Ok_keyword.
Qed.

Lemma interface_le (value : Z) (s : state) :
  value ≤ 10 →
  interface value s =
    (Normal (PyRef (S (length (heap s)))),
     State (heap s ++ [Object ClsValueError [] ∅;
                       Object ClsErr [] (Err_dict (PyRef (length (heap s))))])
           (trace s)).
Proof.
  intros Hv. unfold interface. case_decide; [lia|].
  unfold mbind, M_bind. rewrite ValueError_no_args, Err_keyword. cbn [heap trace].
  rewrite length_app, <- app_assoc. cbn [length app].
  replace (length (heap s) + 1)%nat with (S (length (heap s))) by lia.
  reflexivity.
Qed.

Lemma field_of_alloc (h : list object) (t : list event) (o : object)
    (name : string) :
  field_of (State (h ++ [o]) t) (PyRef (length h)) name = ob_dict o !! name.
Proof. unfold field_of. by rewrite deref_alloc. Qed.

Lemma isinstance_alloc (h : list object) (t : list event) (o : object) :
  isinstance (State (h ++ [o]) t) (PyRef (length h)) (ob_class o) = true.
Proof. unfold isinstance. rewrite deref_alloc. by apply bool_decide_eq_true. Qed.

(** The state [interface] leaves behind on its failure path, with the
    [Err] instance in the last cell. *)
Lemma interface_le_last (value : Z) (s : state) :
  value ≤ 10 →
  interface value s =
    (Normal (PyRef (length (heap s ++ [Object ClsValueError [] ∅]))),
     State ((heap s ++ [Object ClsValueError [] ∅]) ++
              [Object ClsErr [] (Err_dict (PyRef (length (heap s))))])
           (trace s)).
Proof.
  intros Hv. rewrite interface_le by done.
  rewrite length_app, <- app_assoc. cbn [length app].
  by replace (length (heap s) + 1)%nat with (S (length (heap s))) by lia.
Qed.

(** ** The result-producing function *)

(** C1. For every integer [v > 10], [interface v] returns an instance of
    [Ok] whose [response] is [v] and whose [error] is [None]. *)
Theorem interface_success (v : Z) (s : state) :
  v > 10 →
  ∃ r s', interface v s = (Normal r, s') ∧
          isinstance s' r ClsOk = true ∧
          field_of s' r "response" = Some (PyInt v) ∧
          field_of s' r "error" = Some PyNone.
Proof.
  intros Hv. rewrite interface_gt by done.
  eexists _, _. split; [reflexivity|].
  split; [apply (isinstance_alloc _ _ (Object ClsOk [] _))|].
  by rewrite !field_of_alloc.
Qed.

Lemma interface_success_witness :
  12 > 10 ∧
  ∃ r s', interface 12 empty_state = (Normal r, s') ∧
          isinstance s' r ClsOk = true ∧
          field_of s' r "response" = Some (PyInt 12) ∧
          field_of s' r "error" = Some PyNone.
Proof. split; [lia | apply (interface_success 12 empty_state); lia]. Defined.

(** C2. For every integer [v <= 10], [interface v] returns an instance of
    [Err] whose [error] is present (not [None]) and whose [response] is
    [None]. *)
Theorem interface_failure (v : Z) (s : state) :
  v ≤ 10 →
  ∃ r s' e, interface v s = (Normal r, s') ∧
            isinstance s' r ClsErr = true ∧
            field_of s' r "error" = Some e ∧ e ≠ PyNone ∧
            field_of s' r "response" = Some PyNone.
Proof.
  intros Hv. rewrite interface_le_last by done.
  eexists _, _, (PyRef (length (heap s))). split; [reflexivity|].
  split; [apply (isinstance_alloc _ _ (Object ClsErr [] _))|].
  by rewrite !field_of_alloc.
Qed.

Lemma interface_failure_witness :
  10 ≤ 10 ∧
  ∃ r s' e, interface 10 empty_state = (Normal r, s') ∧
            isinstance s' r ClsErr = true ∧
            field_of s' r "error" = Some e ∧ e ≠ PyNone ∧
            field_of s' r "response" = Some PyNone.
Proof. split; [lia | apply (interface_failure 10 empty_state); lia]. Defined.

(** C8. On the failure path the [error] field refers to an instance of
    [ValueError] built with no argument: it is what the call [ValueError()]
    returned, its [args] is the empty tuple and it carries no attribute. *)
Theorem interface_failure_ValueError (v : Z) (s : state) :
  v ≤ 10 →
  ∃ r s' e, interface v s = (Normal r, s') ∧
            isinstance s' r ClsErr = true ∧
            field_of s' r "error" = Some e ∧
            deref s' e = Some (Object ClsValueError [] ∅) ∧
            (ValueError [] ∅ s).1 = Normal e.
Proof.
  intros Hv. rewrite interface_le_last by done.
  eexists _, _, (PyRef (length (heap s))). split; [reflexivity|].
  split; [apply (isinstance_alloc _ _ (Object ClsErr [] _))|].
  rewrite field_of_alloc. split; [done|]. split; [|done].
  apply deref_alloc_old, list_lookup_middle. reflexivity.
Qed.

Lemma interface_failure_ValueError_witness :
  0 ≤ 10 ∧
  ∃ r s' e, interface 0 empty_state = (Normal r, s') ∧
            isinstance s' r ClsErr = true ∧
            field_of s' r "error" = Some e ∧
            deref s' e = Some (Object ClsValueError [] ∅) ∧
            (ValueError [] ∅ empty_state).1 = Normal e.
Proof.
  split; [lia | apply (interface_failure_ValueError 0 empty_state); lia].
Defined.

(** C9. [interface] is total on the integers: for every [v] and from every
    state the call returns normally, and what it returns is an instance of
    [Ok] or an instance of [Err]; it never raises. *)
Theorem interface_total (v : Z) (s : state) :
  ∃ r s', interface v s = (Normal r, s') ∧
          (isinstance s' r ClsOk = true ∨ isinstance s' r ClsErr = true).
Proof.
  destruct (decide (v > 10)) as [Hv|Hv].
  - rewrite interface_gt by done. eexists _, _. split; [reflexivity|].
    left. apply (isinstance_alloc _ _ (Object ClsOk [] _)).
  - rewrite interface_le_last by lia. eexists _, _. split; [reflexivity|].
    right. apply (isinstance_alloc _ _ (Object ClsErr [] _)).
Qed.

(** ** The module-level narrowing example *)

Lemma getattr_field (s : state) (a : addr) (ob : object) (name : string)
    (v : pyval) :
  heap s !! a = Some ob →
  ob_dict ob !! name = Some v →
  getattr (PyRef a) name s =
    (Normal v, State (heap s) (trace s ++ [EvLoad a name])).
Proof. intros Ha Hn. unfold getattr. by rewrite Ha, Hn. Qed.

(** On an [Ok] built from its payload the branch reads [is_success], then
    [response]. *)
Lemma narrowing_Ok (s : state) (a : addr) (x : pyval) :
  heap s !! a = Some (Object ClsOk [] (Ok_dict x)) →
  narrowing (PyRef a) s =
    (Normal tt,
     State (heap s) (trace s ++ [EvLoad a "is_success"; EvLoad a "response"])).
Proof.
  intros Ha. unfold narrowing, mbind, M_bind.
  rewrite (getattr_field s a _ "is_success" (PyBool true) Ha) by done.
  cbn [is_True].
  rewrite (getattr_field (State (heap s) _) a _ "response" x Ha) by done.
  cbn [heap trace mret M_ret]. by rewrite <- app_assoc.
Qed.

(** On an [Err] built from its payload the branch reads [is_success], then
    [error]. *)
Lemma narrowing_Err (s : state) (a : addr) (e : pyval) :
  heap s !! a = Some (Object ClsErr [] (Err_dict e)) →
  narrowing (PyRef a) s =
    (Normal tt,
     State (heap s) (trace s ++ [EvLoad a "is_success"; EvLoad a "error"])).
Proof.
  intros Ha. unfold narrowing, mbind, M_bind.
  rewrite (getattr_field s a _ "is_success" (PyBool false) Ha) by done.
  cbn [is_True].
  rewrite (getattr_field (State (heap s) _) a _ "error" e Ha) by done.
  cbn [heap trace mret M_ret]. by rewrite <- app_assoc.
Qed.

Lemma module_main_eq (s : state) :
  module_main s =
    (Normal {["result" := PyRef (length (heap s))]},
     State (heap s ++ [Object ClsOk [] (Ok_dict (PyInt 12))])
           (trace s ++ [EvLoad (length (heap s)) "is_success";
                        EvLoad (length (heap s)) "response"])).
Proof.
  unfold module_main, mbind, M_bind.
  rewrite interface_gt by lia.
  rewrite (narrowing_Ok _ (length (heap s)) (PyInt 12))
    by (cbn [heap]; by apply list_lookup_middle).
  reflexivity.
Qed.

(** C10. After the module has run, [result] is bound to an [Ok] instance
    with [response = 12], [error = None] and [is_success = True] (the very
    object the call [Ok(response=12, error=None, is_success=True)] builds),
    and the branch that ran is the one reading [result.response]. *)
Theorem module_result (s : state) :
  ∃ a s', module_main s = (Normal {["result" := PyRef a]}, s') ∧
          deref s' (PyRef a) =
            Some (Object ClsOk []
                    {[ "response" := PyInt 12; "error" := PyNone;
                       "is_success" := PyBool true ]}) ∧
          heap s' =
            heap (Ok [] {[ "response" := PyInt 12; "error" := PyNone;
                           "is_success" := PyBool true ]} s).2 ∧
          trace s' = trace s ++ [EvLoad a "is_success"; EvLoad a "response"].
Proof.
  rewrite module_main_eq. eexists _, _. split; [reflexivity|].
  split; [apply deref_alloc|]. split; [|reflexivity].
  unfold Ok, call. cbn [dataclass_of dc_fields].
  replace (bind_arguments Ok_fields [] _)
    with (Some (Ok_dict (PyInt 12))) by (vm_compute; reflexivity).
  reflexivity.
Qed.

(** C7. Running the module raises nothing, and for every result that
    [interface] returns the branch completes normally: it reads
    [is_success] and then [response] or [error], creates no object and
    leaves the store as it was, so a stored exception is referenced and
    never raised. *)
Theorem narrowing_never_raises :
  (∀ s, ∃ g s', module_main s = (Normal g, s')) ∧
  (∀ v s, ∃ a s1 s2,
      interface v s = (Normal (PyRef a), s1) ∧
      narrowing (PyRef a) s1 = (Normal tt, s2) ∧
      heap s2 = heap s1 ∧
      trace s2 =
        trace s1 ++ [EvLoad a "is_success";
                     EvLoad a (if decide (v > 10) then "response" else "error")]).
Proof.
  split.
  - intros s. rewrite module_main_eq. by eexists _, _.
  - intros v s. case_decide as Hv.
    + rewrite interface_gt by done. eexists _, _, _. split; [reflexivity|].
      rewrite (narrowing_Ok _ (length (heap s)) (PyInt v))
        by (cbn [heap]; by apply list_lookup_middle).
      done.
    + rewrite interface_le_last by lia. eexists _, _, _. split; [reflexivity|].
      rewrite (narrowing_Err _ _ (PyRef (length (heap s))))
        by (cbn [heap]; by apply list_lookup_middle).
      done.
Qed.

(** ** The cross-referencing factories *)

Lemma call_plain (c : cls) (s : state) :
  dataclass_of c = None → is_exception c = false →
  call c [] ∅ s =
    (Normal (PyRef (length (heap s))),
     State (heap s ++ [Object c [] ∅]) (trace s)).
Proof. intros Hd He. unfold call. by rewrite Hd, He. Qed.

(** C4. [A.from_b(b)] and [B.from_a(a)] return a reference (so not [None])
    to a new object: its address was free before the call, it is an
    instance of [A] (of [B]) with no attribute, exactly what the
    zero-argument calls [A()] and [B()] build, the objects already in the
    store are kept, and the outcome is the same whatever the argument. *)
Theorem factories_default_construct (x y : pyval) (s : state) :
  ∃ a sA sB,
    from_b ClsA x s = (Normal (PyRef a), sA) ∧
    from_a ClsB x s = (Normal (PyRef a), sB) ∧
    PyRef a ≠ PyNone ∧
    deref s (PyRef a) = None ∧
    deref sA (PyRef a) = Some (Object ClsA [] ∅) ∧
    deref sB (PyRef a) = Some (Object ClsB [] ∅) ∧
    heap sA = heap s ++ [Object ClsA [] ∅] ∧
    heap sB = heap s ++ [Object ClsB [] ∅] ∧
    from_b ClsA x s = call ClsA [] ∅ s ∧
    from_a ClsB x s = call ClsB [] ∅ s ∧
    from_b ClsA x s = from_b ClsA y s ∧
    from_a ClsB x s = from_a ClsB y s.
Proof.
  unfold from_b, from_a. rewrite !call_plain by done.
  eexists _, _, _. do 2 (split; [reflexivity|]).
  split; [done|]. split; [by apply lookup_ge_None_2|].
  do 2 (split; [apply deref_alloc|]). done.
Qed.

(** ** The invariant of the result variants, on the constructors *)

Lemma result_invariant_Ok_dict (h : list object) (t : list event) (x : pyval) :
  x ≠ PyNone →
  result_invariant (State (h ++ [Object ClsOk [] (Ok_dict x)]) t)
                   (PyRef (length h)) = true.
Proof.
  intros Hx. unfold result_invariant, populated, discriminant.
  rewrite !field_of_alloc. cbn [ob_dict].
  replace (Ok_dict x !! "response") with (Some x) by done.
  replace (Ok_dict x !! "error") with (Some PyNone) by done.
  replace (Ok_dict x !! "is_success") with (Some (PyBool true)) by done.
  by destruct x.
Qed.

Lemma result_invariant_Err_dict (h : list object) (t : list event) (e : pyval) :
  e ≠ PyNone →
  result_invariant (State (h ++ [Object ClsErr [] (Err_dict e)]) t)
                   (PyRef (length h)) = true.
Proof.
  intros He. unfold result_invariant, populated, discriminant.
  rewrite !field_of_alloc. cbn [ob_dict].
  replace (Err_dict e !! "response") with (Some PyNone) by done.
  replace (Err_dict e !! "error") with (Some e) by done.
  replace (Err_dict e !! "is_success") with (Some (PyBool false)) by done.
  by destruct e.
Qed.

(** C3, as stated, fails: [Ok(response=None)] is an [Ok] instance in which
    neither [response] nor [error] is populated. *)
Lemma Ok_None_no_payload :
  ∃ r s', Ok [] {["response" := PyNone]} empty_state = (Normal r, s') ∧
          isinstance s' r ClsOk = true ∧
          populated s' r "response" = false ∧
          populated s' r "error" = false ∧
          result_invariant s' r = false.
Proof. eexists _, _. split; [reflexivity|]. by vm_compute. Qed.

(** A result variant built from its payload alone, by keyword or by
    position, with a payload that is not [None] and the other two fields
    left to their defaults, has exactly one of [response] and [error]
    populated, and [is_success] is [True] exactly when it is [response]. *)
Theorem payload_only_invariant (x : pyval) (s : state) :
  x ≠ PyNone →
  ∀ build, build ∈ [ Ok [] {["response" := x]}; Ok [x] ∅;
                     Err [] {["error" := x]}; Err [x] ∅ ] →
  ∃ r s', build s = (Normal r, s') ∧
          (isinstance s' r ClsOk = true ∨ isinstance s' r ClsErr = true) ∧
          result_invariant s' r = true.
Proof.
  intros Hx build Hb.
  repeat (apply elem_of_cons in Hb as [->|Hb]); [| | | |by apply elem_of_nil in Hb].
  - rewrite Ok_keyword. eexists _, _. split; [reflexivity|].
    split; [left; apply (isinstance_alloc _ _ (Object ClsOk [] _))|].
    by apply result_invariant_Ok_dict.
  - rewrite Ok_positional. eexists _, _. split; [reflexivity|].
    split; [left; apply (isinstance_alloc _ _ (Object ClsOk [] _))|].
    by apply result_invariant_Ok_dict.
  - rewrite Err_keyword. eexists _, _. split; [reflexivity|].
    split; [right; apply (isinstance_alloc _ _ (Object ClsErr [] _))|].
    by apply result_invariant_Err_dict.
  - rewrite Err_positional. eexists _, _. split; [reflexivity|].
    split; [right; apply (isinstance_alloc _ _ (Object ClsErr [] _))|].
    by apply result_invariant_Err_dict.
Qed.

Lemma payload_only_invariant_witness :
  PyInt 11 ≠ PyNone ∧
  ∃ r s', Ok [] {["response" := PyInt 11]} empty_state = (Normal r, s') ∧
          (isinstance s' r ClsOk = true ∨ isinstance s' r ClsErr = true) ∧
          result_invariant s' r = true.
Proof.
  split; [discriminate|].
  apply (payload_only_invariant (PyInt 11) empty_state); [discriminate|].
  apply elem_of_cons. by left.
Defined.

(** Every result [interface] returns satisfies the invariant. *)
Lemma interface_result_invariant (v : Z) (s : state) :
  ∃ r s', interface v s = (Normal r, s') ∧ result_invariant s' r = true.
Proof.
  destruct (decide (v > 10)) as [Hv|Hv].
  - rewrite interface_gt by done. eexists _, _. split; [reflexivity|].
    by apply result_invariant_Ok_dict.
  - rewrite interface_le_last by lia. eexists _, _. split; [reflexivity|].
    by apply result_invariant_Err_dict.
Qed.

(** Overriding a [Literal] field breaks the invariant although the payload
    is there: [Ok(1, is_success=False)] has a populated [response] and a
    discriminant that is not [True]. *)
Lemma Ok_literal_overridden :
  ∃ r s', Ok [PyInt 1] {["is_success" := PyBool false]} empty_state
            = (Normal r, s') ∧
          payload_present s' r = true ∧
          literals_hold s' r = false ∧
          result_invariant s' r = false.
Proof. eexists _, _. split; [reflexivity|]. by vm_compute. Qed.

(** C3, amended. Every [Ok] or [Err] object in the store, however it came
    there, whose [Literal] fields hold their declared values ([error] is
    [None] and [is_success] is [True] in an [Ok]; [response] is [None] and
    [is_success] is [False] in an [Err]) and whose payload is not [None],
    has exactly one of [response] and [error] populated, and its
    [is_success] is [True] exactly when it is [response]. *)
Theorem typed_result_invariant (s : state) (r : pyval) :
  literals_hold s r = true →
  payload_present s r = true →
  (isinstance s r ClsOk = true ∨ isinstance s r ClsErr = true) ∧
  result_invariant s r = true.
Proof.
  unfold literals_hold, payload_present, isinstance, result_invariant,
    populated, discriminant, field_of.
  destruct (deref s r) as [[c args d]|]; [|done].
  cbn [ob_class ob_dict mbind option_bind].
  destruct c; try done;
    cbn [dataclass_of dc_fields Ok_fields Err_fields forallb f_type f_name];
    rewrite !andb_true_iff, !bool_decide_eq_true;
    intros (_ & Hl1 & Hl2 & _) Hp.
  - rewrite Hl1, Hl2. destruct Hp as [Hp _]. split; [by left|].
    by destruct (d !! "response") as [[]|].
  - rewrite Hl1, Hl2. destruct Hp as [Hp _]. split; [by right|].
    by destruct (d !! "error") as [[]|].
Qed.

Lemma typed_result_invariant_witness :
  let s := (Ok [PyInt 5; PyNone; PyBool true] ∅ empty_state).2 in
  literals_hold s (PyRef 0) = true ∧
  payload_present s (PyRef 0) = true ∧
  (isinstance s (PyRef 0) ClsOk = true ∨ isinstance s (PyRef 0) ClsErr = true) ∧
  result_invariant s (PyRef 0) = true.
Proof.
  intros s. split; [by vm_compute|]. split; [by vm_compute|].
  apply (typed_result_invariant s (PyRef 0)); by vm_compute.
Defined.

(** An instance whose fields all hold values of their declared types has
    its [Literal] fields right; in an [Err] the payload is then an
    exception, so it is there. *)
Lemma well_typed_literals_hold (s : state) (r : pyval) :
  well_typed_instance s r = true →
  literals_hold s r = true ∧
  (isinstance s r ClsErr = true → payload_present s r = true).
Proof.
  unfold well_typed_instance, literals_hold, payload_present, isinstance.
  destruct (deref s r) as [[c args d]|]; [|done].
  cbn [ob_class ob_dict].
  destruct c; try done;
    cbn [dataclass_of dc_fields Ok_fields Err_fields forallb f_type f_name];
    rewrite !andb_true_iff.
  - intros (_ & H1 & H2 & _).
    destruct (d !! "error") as [v1|]; [|done].
    destruct (d !! "is_success") as [v2|]; [|done].
    cbn in H1, H2. apply bool_decide_eq_true in H1 as ->, H2 as ->.
    split; [done|]. intros Hc. by apply bool_decide_eq_true in Hc.
  - intros (H0 & H1 & H2 & _).
    destruct (d !! "error") as [v0|]; [|done].
    destruct (d !! "response") as [v1|]; [|done].
    destruct (d !! "is_success") as [v2|]; [|done].
    cbn in H1, H2. apply bool_decide_eq_true in H1 as ->, H2 as ->.
    split; [done|]. intros _. cbn in H0. by destruct v0.
Qed.

(** ** Calls only extend the store *)

#[global] Instance extends_preorder : PreOrder extends.
Proof.
  split.
  - intros s. unfold extends. reflexivity.
  - intros s1 s2 s3 H12 H23. unfold extends in *. by etrans.
Qed.



Lemma framed_ret {R : Type} (x : R) : framed (mret x : M R).
Proof. intros s. reflexivity. Qed.

Lemma framed_bind {R1 R2 : Type} (c : M R1) (k : R1 → M R2) :
  framed c → (∀ x, framed (k x)) → framed (c ≫= k).
Proof.
  intros Hc Hk s. unfold mbind, M_bind.
  specialize (Hc s). destruct (c s) as [[x|e] s']; [|done].
  etrans; [exact Hc|apply Hk].
Qed.

Lemma framed_alloc (o : object) : framed (alloc o).
Proof. intros s. by exists [o]. Qed.

Lemma framed_raise {R : Type} (c : cls) : framed (raise c : M R).
Proof. intros s. by eexists [_]. Qed.

Lemma framed_call (c : cls) (args : list pyval) (kwargs : gmap string pyval) :
  framed (call c args kwargs).
Proof.
  unfold call.
  repeat (case_match || case_decide);
    first [apply framed_raise
          |apply framed_bind; [apply framed_alloc|intros; apply framed_ret]].
Qed.

Lemma framed_getattr (o : pyval) (name : string) : framed (getattr o name).
Proof.
  intros s. unfold getattr.
  repeat case_match; first [apply framed_raise | by unfold extends].
Qed.

Create HintDb frame discriminated.
#[local] Hint Resolve framed_ret framed_bind framed_alloc framed_raise
  framed_call framed_getattr : frame.

Lemma framed_interface (value : Z) : framed (interface value).
Proof. unfold interface. case_decide; eauto with frame. Qed.

Lemma framed_narrowing (result : pyval) : framed (narrowing result).
Proof.
  unfold narrowing. apply framed_bind; [eauto with frame|].
  intros t. destruct (is_True t); eauto with frame.
Qed.

#[local] Hint Resolve framed_interface framed_narrowing : frame.

Lemma framed_module_main : framed module_main.
Proof. unfold module_main. eauto 6 with frame. Qed.

#[local] Hint Resolve framed_module_main : frame.

(** ** The discriminant under assignment *)




(** An assignment that respects the declared types changes a discriminant
    that did not hold its declared value: on [Ok(1, is_success=False)] the
    assignment [is_success = True] is a typed store and the field, [False]
    before, reads [True] after. *)
Lemma typed_store_on_untyped_discriminant :
  ∃ r s1 s2,
    Ok [PyInt 1] {["is_success" := PyBool false]} empty_state
      = (Normal r, s1) ∧
    well_typed_discriminant s1 r = false ∧
    field_of s1 r "is_success" = Some (PyBool false) ∧
    well_typed_store s1 r "is_success" (PyBool true) = true ∧
    setattr r "is_success" (PyBool true) s1 = (Normal tt, s2) ∧
    field_of s2 r "is_success" = Some (PyBool true).
Proof.
  eexists _, _, _. split; [reflexivity|].
  do 3 (split; [by vm_compute|]). split; [reflexivity|]. by vm_compute.
Qed.



(** ** Determinism and absence of side effects *)

Lemma reify_interface (value : Z) (s : state) :
  ∃ r s', interface value s = (Normal r, s') ∧
          reify 2 (heap s') r = interface_datum value ∧
          extends s s' ∧ trace s' = trace s.
Proof.
  unfold interface_datum. case_decide as Hv.
  - rewrite interface_gt by done. eexists _, _. split; [reflexivity|].
    split; [|split; [by eexists|done]].
    cbn [reify heap]. rewrite list_lookup_middle by done.
    cbn [ob_class ob_args ob_dict]. unfold Ok_dict.
    by rewrite !fmap_insert, map_fmap_singleton.
  - rewrite interface_le_last by lia. eexists _, _. split; [reflexivity|].
    split; [|split; [by eexists [_; _]; rewrite <- app_assoc|done]].
    cbn [reify heap]. rewrite list_lookup_middle by done.
    cbn [ob_class ob_args ob_dict]. unfold Err_dict.
    rewrite !fmap_insert, map_fmap_singleton. cbn [reify].
    rewrite lookup_app_l by (rewrite length_app; cbn; lia).
    rewrite list_lookup_middle by done.
    cbn [ob_class ob_args ob_dict]. by rewrite fmap_empty.
Qed.

(** C6, as stated, fails: the results of two calls [interface(0)] are two
    [Err] objects whose [error] fields refer to two different [ValueError]
    objects, and under the equality of the dataclass, [r1 == r2], they
    are not equal. *)
Lemma interface_failure_results_unequal :
  ∃ r1 r2 s',
    (r1 ← interface 0; r2 ← interface 0; mret (r1, r2)) empty_state
      = (Normal (r1, r2), s') ∧
    r1 ≠ r2 ∧
    field_of s' r1 "error" ≠ field_of s' r2 "error" ∧
    py_eq 1 (heap s') r1 r2 = Some false.
Proof.
  eexists _, _, _. split; [reflexivity|]. split; [done|].
  split; by vm_compute.
Qed.

(** C6, amended. Two calls of [interface] with the same integer, from any
    two states, both return normally and their results have the same
    contents: the same variant with the same field values (for a failure,
    a [ValueError] with empty [args]). Neither call changes an object that
    was in the store nor reads an attribute: it only adds the objects it
    returns. *)
Theorem interface_deterministic (v : Z) (s1 s2 : state) :
  ∃ r1 s1' r2 s2',
    interface v s1 = (Normal r1, s1') ∧
    interface v s2 = (Normal r2, s2') ∧
    reify 2 (heap s1') r1 = reify 2 (heap s2') r2 ∧
    reify 2 (heap s1') r1 = interface_datum v ∧
    extends s1 s1' ∧ trace s1' = trace s1 ∧
    extends s2 s2' ∧ trace s2' = trace s2.
Proof.
  destruct (reify_interface v s1) as (r1 & s1' & E1 & D1 & X1 & T1).
  destruct (reify_interface v s2) as (r2 & s2' & E2 & D2 & X2 & T2).
  exists r1, s1', r2, s2'. rewrite D1, D2. done.
Qed.

(** The results of two successive calls are distinct objects: equality of
    results is equality of contents, not identity. *)
Lemma interface_fresh_each_call (v : Z) (s : state) :
  ∃ r1 r2 s',
    (r1 ← interface v; r2 ← interface v; mret (r1, r2)) s
      = (Normal (r1, r2), s') ∧
    r1 ≠ r2.
Proof.
  unfold mbind, M_bind. destruct (decide (v > 10)) as [Hv|Hv].
  - rewrite interface_gt by done. rewrite interface_gt by done.
    eexists _, _, _. split; [reflexivity|].
    cbn [heap]. rewrite length_app. cbn [length]. intros [=]. lia.
  - rewrite interface_le by lia. rewrite interface_le by lia.
    eexists _, _, _. split; [reflexivity|].
    cbn [heap]. rewrite length_app. cbn [length]. intros [=]. lia.
Qed.

(** * The generated constructors *)

(** ** Binding the arguments *)

Lemma dataclass_fields_NoDup (c : cls) (dc : dataclass) :
  dataclass_of c = Some dc → NoDup (f_name <$> dc_fields dc).
Proof. destruct c; intros [= <-]; compute_done. Qed.

Lemma bind_positional_None (fs : list field) (args : list pyval) :
  (length fs < length args)%nat → bind_positional fs args = None.
Proof.
  revert fs. induction args as [|v args IH]; intros fs Hl; [cbn in Hl; lia|].
  destruct fs as [|f fs]; [done|]. cbn in *. rewrite IH by lia. done.
Qed.

Lemma bind_positional_Some (fs : list field) (args : list pyval) :
  (length args ≤ length fs)%nat →
  ∃ d, bind_positional fs args = Some d ∧
       (∀ k, is_Some (d !! k) ↔ k ∈ f_name <$> take (length args) fs) ∧
       (NoDup (f_name <$> fs) →
        ∀ i f v, fs !! i = Some f → args !! i = Some v →
                 d !! f_name f = Some v).
Proof.
  revert fs. induction args as [|v args IH]; intros fs Hl.
  - exists ∅. split; [by destruct fs|]. split; [|done].
    intros k. rewrite lookup_empty, take_0. cbn. split; [by intros [? ?]|].
    by intros ?%elem_of_nil.
  - destruct fs as [|f fs]; [cbn in Hl; lia|]. cbn in Hl.
    destruct (IH fs) as (d & Hd & Hdom & Hval); [lia|].
    exists (<[f_name f := v]> d). cbn. rewrite Hd. split; [done|]. split.
    + intros k. rewrite elem_of_cons, <- Hdom, lookup_insert_is_Some.
      destruct (decide (f_name f = k)) as [Heq|Hne]; [split; auto|].
      split; [intros [Hk|[_ Hk]]; [done|by right]|].
      intros [Hk|Hk]; [congruence|by right].
    + intros Hnd i f' v' Hf Ha. apply NoDup_cons in Hnd as [Hnotin Hnd].
      destruct i as [|i]; cbn in Hf, Ha.
      * injection Hf as <-. injection Ha as <-. apply lookup_insert_eq.
      * rewrite lookup_insert_ne; [by eapply Hval|].
        intros Heq. apply Hnotin. rewrite Heq.
        apply list_elem_of_fmap. exists f'. split; [done|].
        by eapply list_elem_of_lookup_2.
Qed.

Lemma fill_defaults_keeps (fs : list field) (d d' : gmap string pyval)
    (k : string) (v : pyval) :
  fill_defaults fs d = Some d' → d !! k = Some v → d' !! k = Some v.
Proof.
  revert d. induction fs as [|f fs IH]; intros d Hf Hk; cbn in Hf.
  - by injection Hf as <-.
  - destruct (d !! f_name f) eqn:Ef; [by eapply IH|].
    destruct (f_default f) as [v0|]; [|done].
    eapply IH; [exact Hf|]. rewrite lookup_insert_ne; [done|]. congruence.
Qed.

Lemma fill_defaults_default (fs : list field) (d d' : gmap string pyval)
    (f : field) :
  NoDup (f_name <$> fs) →
  fill_defaults fs d = Some d' → f ∈ fs → d !! f_name f = None →
  d' !! f_name f = f_default f ∧ is_Some (f_default f).
Proof.
  revert d. induction fs as [|f0 fs IH]; intros d Hnd Hf Hin Hk; cbn in Hf.
  - by apply elem_of_nil in Hin.
  - apply NoDup_cons in Hnd as [Hnotin Hnd].
    apply elem_of_cons in Hin as [->|Hin].
    + rewrite Hk in Hf. destruct (f_default f0) as [v0|]; [|done].
      split; [|by eexists]. eapply fill_defaults_keeps; [exact Hf|].
      apply lookup_insert_eq.
    + assert (f_name f0 ≠ f_name f) as Hne.
      { intros Heq. apply Hnotin. rewrite Heq. apply list_elem_of_fmap. eauto. }
      destruct (d !! f_name f0) eqn:Ef; [by eapply IH|].
      destruct (f_default f0) as [v0|]; [|done].
      eapply IH; [done|exact Hf|done|]. by rewrite lookup_insert_ne.
Qed.

Lemma fill_defaults_dom (fs : list field) (d d' : gmap string pyval)
    (k : string) :
  fill_defaults fs d = Some d' → is_Some (d' !! k) →
  is_Some (d !! k) ∨ k ∈ f_name <$> fs.
Proof.
  revert d. induction fs as [|f fs IH]; intros d Hf Hk; cbn in Hf.
  - injection Hf as <-. by left.
  - cbn. rewrite elem_of_cons.
    destruct (d !! f_name f) eqn:Ef.
    + destruct (IH _ Hf Hk); auto.
    + destruct (f_default f) as [v0|]; [|done].
      destruct (IH _ Hf Hk) as [Hi|Hi]; [|auto].
      apply lookup_insert_is_Some in Hi as [->|[_ Hi]]; auto.
Qed.

Lemma fill_defaults_Some (fs : list field) (d : gmap string pyval) :
  (∀ f, f ∈ fs → d !! f_name f = None → is_Some (f_default f)) →
  is_Some (fill_defaults fs d).
Proof.
  revert d. induction fs as [|f fs IH]; intros d H; cbn; [by eexists|].
  destruct (d !! f_name f) eqn:Ef.
  - apply IH. intros f' Hin. apply H. by apply elem_of_cons; right.
  - destruct (H f) as [v0 Hv0]; [by apply elem_of_cons; left|done|].
    rewrite Hv0. apply IH. intros f' Hin Hn. apply H.
    + by apply elem_of_cons; right.
    + destruct (decide (f_name f = f_name f')) as [Heq|Hne]; [congruence|].
      by rewrite lookup_insert_ne in Hn.
Qed.

Lemma names_take_drop_disjoint (fs : list field) (n : nat) (k : string) :
  NoDup (f_name <$> fs) →
  k ∈ f_name <$> take n fs → k ∈ f_name <$> drop n fs → False.
Proof.
  intros Hnd Ht Hd. rewrite <- (take_drop n fs), fmap_app in Hnd.
  apply NoDup_app in Hnd as (_ & Hdisj & _). by eapply Hdisj.
Qed.

Lemma names_take_or_drop (fs : list field) (n : nat) (f : field) :
  f ∈ fs → f ∈ take n fs ∨ f ∈ drop n fs.
Proof. rewrite <- (take_drop n fs) at 1. apply elem_of_app. Qed.

Lemma lookup_drop_elem (fs : list field) (n i : nat) (f : field) :
  fs !! i = Some f → (n ≤ i)%nat → f ∈ drop n fs.
Proof.
  intros Hf Hle. apply list_elem_of_lookup. exists (i - n)%nat.
  rewrite lookup_drop. by replace (n + (i - n))%nat with i by lia.
Qed.

(** What [bind_arguments] returns, when it returns: the call fits the
    signature, every field is bound, to the positional argument at its
    index, else to the keyword of its name, else to its default, and
    nothing but the fields is bound. *)
Lemma bind_arguments_Some (fs : list field) (args : list pyval)
    (kwargs d' : gmap string pyval) :
  NoDup (f_name <$> fs) →
  bind_arguments fs args kwargs = Some d' →
  (length args ≤ length fs)%nat ∧
  (∀ k, is_Some (kwargs !! k) → k ∈ f_name <$> drop (length args) fs) ∧
  (∀ i f, fs !! i = Some f →
          is_Some (d' !! f_name f) ∧
          d' !! f_name f =
            match args !! i with
            | Some v => Some v
            | None => match kwargs !! f_name f with
                      | Some v => Some v
                      | None => f_default f
                      end
            end) ∧
  (∀ k, is_Some (d' !! k) → k ∈ f_name <$> fs).
Proof.
  intros Hnd Hb. unfold bind_arguments in Hb.
  destruct (decide (length args ≤ length fs)%nat) as [Hl|Hl];
    [|by rewrite bind_positional_None in Hb by lia].
  destruct (bind_positional_Some fs args Hl) as (d1 & Hd1 & Hdom1 & Hval1).
  rewrite Hd1 in Hb. cbn in Hb. unfold bind_keywords in Hb.
  case_decide as Hkw; [|done]. cbn in Hb.
  assert (∀ k, is_Some (kwargs !! k) →
               k ∈ f_name <$> drop (length args) fs) as Hk.
  { intros k [v Hv]. destruct (Hkw k v Hv) as [Hin Hnone].
    apply list_elem_of_fmap in Hin as (f & -> & Hin).
    destruct (names_take_or_drop fs (length args) f Hin) as [Ht|Hd].
    - assert (is_Some (d1 !! f_name f)) as [? ?]; [|congruence].
      apply Hdom1, list_elem_of_fmap. eauto.
    - apply list_elem_of_fmap. eauto. }
  split; [done|]. split; [done|]. split.
  - intros i f Hf.
    assert (f ∈ fs) as Hin by by eapply list_elem_of_lookup_2.
    destruct (args !! i) as [v|] eqn:Ea.
    + assert (d' !! f_name f = Some v) as ->; [|by split; [eexists|]].
      eapply fill_defaults_keeps; [exact Hb|].
      apply lookup_union_Some_raw. right. split; [|by eapply Hval1].
      destruct (kwargs !! f_name f) as [w|] eqn:Ek; [|done].
      destruct (Hkw _ _ Ek) as [_ Hnone].
      rewrite (Hval1 Hnd i f v Hf Ea) in Hnone. done.
    + apply lookup_ge_None in Ea.
      assert (d1 !! f_name f = None) as Hd1f.
      { apply eq_None_not_Some. intros Hs%Hdom1.
        eapply (names_take_drop_disjoint fs (length args)); [done|exact Hs|].
        apply list_elem_of_fmap. exists f. split; [done|].
        by eapply lookup_drop_elem. }
      destruct (kwargs !! f_name f) as [w|] eqn:Ek.
      * assert (d' !! f_name f = Some w) as ->; [|by split; [eexists|]].
        eapply fill_defaults_keeps; [exact Hb|].
        apply lookup_union_Some_raw. by left.
      * destruct (fill_defaults_default fs _ d' f Hnd Hb Hin) as [-> Hs];
          [|done].
        apply lookup_union_None. done.
  - intros k Hs. destruct (fill_defaults_dom _ _ _ k Hb Hs) as [Hu|Hn]; [|done].
    apply lookup_union_is_Some in Hu as [Hu|Hu].
    + apply Hk in Hu. apply list_elem_of_fmap in Hu as (f & -> & Hu).
      apply list_elem_of_fmap. exists f. split; [done|].
      apply list_elem_of_lookup in Hu as [j Hj].
      rewrite lookup_drop in Hj. by eapply list_elem_of_lookup_2.
    + apply Hdom1 in Hu. apply list_elem_of_fmap in Hu as (f & -> & Hu).
      apply list_elem_of_fmap. exists f. split; [done|].
      apply list_elem_of_lookup in Hu as [j Hj].
      apply lookup_take_Some in Hj as [Hj _]. by eapply list_elem_of_lookup_2.
Qed.

(** A call that fits the signature is bound. *)
Lemma bind_arguments_fits (fs : list field) (args : list pyval)
    (kwargs : gmap string pyval) :
  NoDup (f_name <$> fs) →
  (length args ≤ length fs)%nat →
  (∀ k, is_Some (kwargs !! k) → k ∈ f_name <$> drop (length args) fs) →
  (∀ f, f ∈ drop (length args) fs → f_default f = None →
        is_Some (kwargs !! f_name f)) →
  is_Some (bind_arguments fs args kwargs).
Proof.
  intros Hnd Hl Hk Hreq. unfold bind_arguments.
  destruct (bind_positional_Some fs args Hl) as (d1 & -> & Hdom1 & _). cbn.
  unfold bind_keywords. rewrite decide_True; cbn.
  - apply fill_defaults_Some. intros f Hin Hnone.
    apply lookup_union_None in Hnone as [Hkn Hdn].
    destruct (f_default f) as [v|] eqn:Ed; [by eexists|].
    destruct (names_take_or_drop fs (length args) f Hin) as [Ht|Hd].
    + assert (is_Some (d1 !! f_name f)) as [? ?]; [|congruence].
      apply Hdom1, list_elem_of_fmap. eauto.
    + destruct (Hreq f Hd Ed) as [? ?]. congruence.
  - intros k v Hv. assert (is_Some (kwargs !! k)) as Hs%Hk by by eexists.
    split.
    + apply list_elem_of_fmap in Hs as (f & -> & Hs).
      apply list_elem_of_fmap. exists f. split; [done|].
      apply list_elem_of_lookup in Hs as [j Hj].
      rewrite lookup_drop in Hj. by eapply list_elem_of_lookup_2.
    + apply eq_None_not_Some. intros Hd%Hdom1.
      by eapply (names_take_drop_disjoint fs (length args)).
Qed.

Lemma call_dataclass_Normal (c : cls) (dc : dataclass) (args : list pyval)
    (kwargs : gmap string pyval) (s s' : state) (r : pyval) :
  dataclass_of c = Some dc →
  call c args kwargs s = (Normal r, s') →
  ∃ d, bind_arguments (dc_fields dc) args kwargs = Some d ∧
       r = PyRef (length (heap s)) ∧
       s' = State (heap s ++ [Object c [] d]) (trace s).
Proof.
  intros Hdc. unfold call. rewrite Hdc.
  destruct (bind_arguments _ _ _) as [d|]; [|done].
  intros [= <- <-]. by exists d.
Qed.

(** ** The signature of the generated constructors *)

(** A call of [Ok] or [Err] returns a new instance of the class exactly
    when it fits the signature the fields declare: no more positional
    arguments than fields, every keyword the name of a field that no
    positional argument fills, and a value for every field without a
    default. Any other call raises a [TypeError] it has just created: an
    object that was not in the store, the only one added, with the
    message as its only argument. *)
Theorem dataclass_call_signature (c : cls) (dc : dataclass)
    (args : list pyval) (kwargs : gmap string pyval) (s : state) :
  dataclass_of c = Some dc →
  let rest := drop (length args) (dc_fields dc) in
  let fits :=
    (length args ≤ length (dc_fields dc))%nat ∧
    (∀ k, is_Some (kwargs !! k) → k ∈ f_name <$> rest) ∧
    (∀ f, f ∈ rest → f_default f = None → is_Some (kwargs !! f_name f)) in
  (fits →
   ∃ r s', call c args kwargs s = (Normal r, s') ∧
           isinstance s' r c = true ∧ deref s r = None) ∧
  (¬ fits →
   ∃ e s', call c args kwargs s = (Raised e, s') ∧
           deref s (PyRef e) = None ∧
           deref s' (PyRef e) = Some (Object ClsTypeError [PyStr] ∅) ∧
           heap s' = heap s ++ [Object ClsTypeError [PyStr] ∅]).
Proof.
  intros Hdc rest fits. subst rest fits.
  pose proof (dataclass_fields_NoDup c dc Hdc) as Hnd.
  unfold call. rewrite Hdc. split.
  - intros (Hl & Hk & Hreq).
    destruct (bind_arguments_fits _ args kwargs Hnd Hl Hk Hreq) as [d ->].
    eexists _, _. split; [reflexivity|].
    split; [apply (isinstance_alloc _ _ (Object c [] d))|].
    by apply lookup_ge_None_2.
  - intros Hnot.
    destruct (bind_arguments (dc_fields dc) args kwargs) as [d|] eqn:Eb.
    + destruct Hnot.
      destruct (bind_arguments_Some _ _ _ _ Hnd Eb) as (Hl & Hk & Hv & _).
      split; [done|]. split; [done|].
      intros f Hin Hdef.
      apply list_elem_of_lookup in Hin as [j Hj]. rewrite lookup_drop in Hj.
      destruct (Hv _ _ Hj) as [Hs Heq].
      rewrite lookup_ge_None_2, Hdef in Heq by lia.
      destruct (kwargs !! f_name f); [by eexists|].
      rewrite Heq in Hs. by destruct Hs.
    + eexists _, _. split; [reflexivity|].
      split; [by apply lookup_ge_None_2|]. split; [apply deref_alloc|done].
Qed.

Lemma dataclass_call_signature_witness :
  dataclass_of ClsOk = Some (Dataclass Ok_fields false) ∧
  (∃ r s', call ClsOk [PyInt 1] {["is_success" := PyBool false]} empty_state
             = (Normal r, s') ∧
           isinstance s' r ClsOk = true ∧ deref empty_state r = None) ∧
  (∃ e s', call ClsOk [] ∅ empty_state = (Raised e, s') ∧
           deref empty_state (PyRef e) = None ∧
           deref s' (PyRef e) = Some (Object ClsTypeError [PyStr] ∅) ∧
           heap s' = heap empty_state ++ [Object ClsTypeError [PyStr] ∅]).
Proof.
  split; [reflexivity|]. split.
  - apply (dataclass_call_signature ClsOk _ [PyInt 1]
             {["is_success" := PyBool false]} empty_state eq_refl).
    split; [cbn; lia|]. split.
    + intros k Hk. destruct (decide (k = "is_success")) as [->|Hne].
      * cbn. apply elem_of_cons. right. apply elem_of_cons. by left.
      * rewrite lookup_singleton_ne in Hk by done. by destruct Hk.
    + intros f Hin Hd. cbn in Hin.
      repeat (apply elem_of_cons in Hin as [->|Hin]); try done.
      by apply elem_of_nil in Hin.
  - apply (dataclass_call_signature ClsOk _ [] ∅ empty_state eq_refl).
    intros (_ & _ & Hreq).
    destruct (Hreq (Field "response" AnnT None)) as [v Hv]; [|done|done].
    cbn. apply elem_of_cons. by left.
Defined.

(** ** What the constructors store *)

(** In the instance a call of [Ok] or [Err] returns, the field declared at
    index [i] holds the [i]-th positional argument if there is one, else
    the keyword argument of its name if there is one, else its default:
    what is passed is stored as it is, whatever its type. *)
Theorem dataclass_call_fields (c : cls) (dc : dataclass) (args : list pyval)
    (kwargs : gmap string pyval) (s s' : state) (r : pyval) (i : nat)
    (f : field) :
  dataclass_of c = Some dc →
  call c args kwargs s = (Normal r, s') →
  dc_fields dc !! i = Some f →
  field_of s' r (f_name f) =
    match args !! i with
    | Some v => Some v
    | None => match kwargs !! f_name f with
              | Some v => Some v
              | None => f_default f
              end
    end.
Proof.
  intros Hdc Hc Hf.
  destruct (call_dataclass_Normal _ _ _ _ _ _ _ Hdc Hc) as (d & Hb & -> & ->).
  rewrite field_of_alloc. cbn [ob_dict].
  pose proof (dataclass_fields_NoDup c dc Hdc) as Hnd.
  destruct (bind_arguments_Some _ _ _ _ Hnd Hb) as (_ & _ & Hv & _).
  by destruct (Hv i f Hf).
Qed.

Lemma dataclass_call_fields_witness :
  dataclass_of ClsErr = Some (Dataclass Err_fields false) ∧
  call ClsErr [PyInt 7] {["is_success" := PyNone]} empty_state
    = (Normal (PyRef 0),
       State [Object ClsErr []
                {[ "error" := PyInt 7; "response" := PyNone;
                   "is_success" := PyNone ]}] []) ∧
  Err_fields !! 0%nat = Some (Field "error" AnnBaseException None) ∧
  field_of (State [Object ClsErr []
                     {[ "error" := PyInt 7; "response" := PyNone;
                        "is_success" := PyNone ]}] [])
           (PyRef 0) "error" = Some (PyInt 7).
Proof.
  split; [reflexivity|]. split; [by vm_compute|]. split; [reflexivity|].
  apply (dataclass_call_fields ClsErr (Dataclass Err_fields false) [PyInt 7]
           {["is_success" := PyNone]} empty_state _ (PyRef 0) 0
           (Field "error" AnnBaseException None));
    [reflexivity|by vm_compute|reflexivity].
Defined.

(** The instance a call of [Ok] or [Err] returns has the declared fields
    as its attributes, all of them and no other. *)
Theorem dataclass_call_attributes (c : cls) (dc : dataclass)
    (args : list pyval) (kwargs : gmap string pyval) (s s' : state)
    (r : pyval) (k : string) :
  dataclass_of c = Some dc →
  call c args kwargs s = (Normal r, s') →
  is_Some (field_of s' r k) ↔ k ∈ f_name <$> dc_fields dc.
Proof.
  intros Hdc Hc.
  destruct (call_dataclass_Normal _ _ _ _ _ _ _ Hdc Hc) as (d & Hb & -> & ->).
  rewrite field_of_alloc. cbn [ob_dict].
  pose proof (dataclass_fields_NoDup c dc Hdc) as Hnd.
  destruct (bind_arguments_Some _ _ _ _ Hnd Hb) as (_ & _ & Hv & Hdom).
  split; [apply Hdom|].
  intros (f & -> & Hin)%list_elem_of_fmap.
  apply list_elem_of_lookup in Hin as [i Hi]. by destruct (Hv i f Hi).
Qed.

Lemma dataclass_call_attributes_witness :
  dataclass_of ClsOk = Some (Dataclass Ok_fields false) ∧
  call ClsOk [PyInt 3] ∅ empty_state
    = (Normal (PyRef 0), State [Object ClsOk [] (Ok_dict (PyInt 3))] []) ∧
  (is_Some (field_of (State [Object ClsOk [] (Ok_dict (PyInt 3))] [])
                     (PyRef 0) "error")
   ↔ "error" ∈ f_name <$> Ok_fields).
Proof.
  split; [reflexivity|]. split; [by vm_compute|].
  apply (dataclass_call_attributes ClsOk (Dataclass Ok_fields false)
           [PyInt 3] ∅ empty_state); [reflexivity|by vm_compute].
Defined.

(** ** Narrowing on any constructed result *)



(** * More on the result-producing function *)

(** The discriminant of the result is the outcome of the threshold test:
    [is_success] is [True] when [v > 10] and [False] otherwise, and the
    result is an [Ok] exactly when [v > 10], an [Err] exactly when not. *)
Theorem interface_discriminant (v : Z) (s : state) :
  ∃ r s', interface v s = (Normal r, s') ∧
          field_of s' r "is_success" = Some (PyBool (bool_decide (v > 10))) ∧
          isinstance s' r ClsOk = bool_decide (v > 10) ∧
          isinstance s' r ClsErr = negb (bool_decide (v > 10)).
Proof.
  case_bool_decide as Hv.
  - rewrite interface_gt by done. eexists _, _. split; [reflexivity|].
    rewrite field_of_alloc. split; [done|].
    unfold isinstance. by rewrite deref_alloc.
  - rewrite interface_le_last by lia. eexists _, _. split; [reflexivity|].
    rewrite field_of_alloc. split; [done|].
    unfold isinstance. by rewrite deref_alloc.
Qed.

(** The result respects the annotations of its class: in an [Ok] the
    [error] is [None] and [is_success] is [True]; in an [Err] the [error]
    is an exception instance, the [response] is [None] and [is_success]
    is [False]. *)
Theorem interface_well_typed (v : Z) (s : state) :
  ∃ r s', interface v s = (Normal r, s') ∧ well_typed_instance s' r = true.
Proof.
  destruct (decide (v > 10)) as [Hv|Hv].
  - rewrite interface_gt by done. eexists _, _. split; [reflexivity|].
    unfold well_typed_instance. rewrite deref_alloc.
    cbn [ob_class ob_dict dataclass_of dc_fields Ok_fields forallb f_name
         f_type].
    replace (Ok_dict (PyInt v) !! "response") with (Some (PyInt v)) by done.
    replace (Ok_dict (PyInt v) !! "error") with (Some PyNone) by done.
    replace (Ok_dict (PyInt v) !! "is_success") with (Some (PyBool true))
      by done.
    done.
  - rewrite interface_le_last by lia. eexists _, _. split; [reflexivity|].
    unfold well_typed_instance. rewrite deref_alloc.
    cbn [ob_class ob_dict dataclass_of dc_fields Err_fields forallb f_name
         f_type].
    set (e := PyRef (length (heap s))).
    replace (Err_dict e !! "response") with (Some PyNone) by done.
    replace (Err_dict e !! "error") with (Some e) by done.
    replace (Err_dict e !! "is_success") with (Some (PyBool false)) by done.
    unfold conforms at 1. subst e.
    rewrite (deref_alloc_old _ _ _ (Object ClsValueError [] ∅))
      by by apply list_lookup_middle.
    done.
Qed.

(** A call adds to the store the objects it returns and nothing else: one
    object, the [Ok], when [v > 10], so no exception is built on the
    success path; two, the [ValueError] and then the [Err] holding it,
    when [v <= 10]. No attribute is read. *)
Theorem interface_allocates (v : Z) (s : state) :
  ∃ r s' new,
    interface v s = (Normal r, s') ∧
    heap s' = heap s ++ new ∧
    trace s' = trace s ∧
    ob_class <$> new =
      (if bool_decide (v > 10) then [ClsOk] else [ClsValueError; ClsErr]) ∧
    deref s' r = last new.
Proof.
  case_bool_decide as Hv.
  - rewrite interface_gt by done. eexists _, _, [_].
    split; [reflexivity|]. cbn [heap trace]. do 3 (split; [done|]).
    apply deref_alloc.
  - rewrite interface_le by lia. eexists _, _, [_; _].
    split; [reflexivity|]. cbn [heap trace]. do 3 (split; [done|]).
    cbn [deref heap last].
    rewrite (lookup_app_r (heap s)) by lia.
    by replace (S (length (heap s)) - length (heap s))%nat with 1%nat by lia.
Qed.

(** * Assignment to a field of a result *)



(** * The factories, one after the other *)

(** [B.from_a(A.from_b(b))]: the two calls return two different new
    objects, an instance of [A] and then an instance of [B]; neither is an
    object that was in the store, the argument included, and the objects
    that were there are kept. *)
Theorem factories_chain (x : pyval) (s : state) :
  ∃ a b s',
    (a ← from_b ClsA x; b ← from_a ClsB a; mret (a, b)) s
      = (Normal (a, b), s') ∧
    isinstance s' a ClsA = true ∧
    isinstance s' b ClsB = true ∧
    a ≠ b ∧
    deref s a = None ∧ deref s b = None ∧
    (is_Some (deref s x) → a ≠ x ∧ b ≠ x) ∧
    extends s s'.
Proof.
  unfold mbind, M_bind, from_b, from_a.
  rewrite call_plain by done. rewrite call_plain by done.
  cbn [heap trace mret M_ret].
  eexists _, _, _. split; [reflexivity|].
  assert (length (heap s ++ [Object ClsA [] ∅]) = S (length (heap s))) as Hl
    by (rewrite length_app; cbn; lia).
  rewrite Hl.
  split.
  { unfold isinstance.
    rewrite (deref_alloc_old _ _ _ (Object ClsA [] ∅))
      by by apply list_lookup_middle.
    done. }
  split.
  { unfold isinstance. cbn [deref heap].
    rewrite (list_lookup_middle _ [] _ (S (length (heap s)))) by done. done. }
  split; [intros [=]; lia|].
  split; [by apply lookup_ge_None_2|].
  split; [apply lookup_ge_None_2; lia|].
  split.
  - intros [ob Hx]. destruct x as [| | | |ax]; try done. cbn in Hx.
    apply lookup_lt_Some in Hx. split; intros [=]; lia.
  - exists [Object ClsA [] ∅; Object ClsB [] ∅]. cbn [heap].
    by rewrite <- app_assoc.
Qed.

(** * Equality of two results *)

Lemma interface_twice_gt (v : Z) (s : state) :
  v > 10 →
  (r1 ← interface v; r2 ← interface v; mret (r1, r2)) s =
    (Normal (PyRef (length (heap s)), PyRef (S (length (heap s)))),
     State (heap s ++ [Object ClsOk [] (Ok_dict (PyInt v));
                       Object ClsOk [] (Ok_dict (PyInt v))]) (trace s)).
Proof.
  intros Hv. unfold mbind, M_bind.
  rewrite interface_gt by done. rewrite interface_gt by done.
  cbn [heap trace mret M_ret]. rewrite length_app, <- app_assoc. cbn [length app].
  by replace (length (heap s) + 1)%nat with (S (length (heap s))) by lia.
Qed.

Lemma interface_twice_le (v : Z) (s : state) :
  v ≤ 10 →
  (r1 ← interface v; r2 ← interface v; mret (r1, r2)) s =
    (Normal (PyRef (S (length (heap s))), PyRef (S (S (S (length (heap s)))))),
     State (heap s ++
              [Object ClsValueError [] ∅;
               Object ClsErr [] (Err_dict (PyRef (length (heap s))));
               Object ClsValueError [] ∅;
               Object ClsErr [] (Err_dict (PyRef (S (S (length (heap s))))))])
           (trace s)).
Proof.
  intros Hv. unfold mbind, M_bind.
  rewrite interface_le by done. rewrite interface_le by done.
  cbn [heap trace mret M_ret]. rewrite length_app, <- app_assoc. cbn [length app].
  by replace (length (heap s) + 2)%nat with (S (S (length (heap s)))) by lia.
Qed.

Lemma lookup_app_offset (h new : list object) (i n : nat) :
  n = (length h + i)%nat → (h ++ new) !! n = new !! i.
Proof. intros ->. rewrite lookup_app_r by lia. f_equal. lia. Qed.

(** On the success path two results of the same call are distinct objects
    that compare equal. *)
Lemma interface_success_results_equal (v : Z) (s : state) :
  v > 10 →
  ∃ r1 r2 s',
    (r1 ← interface v; r2 ← interface v; mret (r1, r2)) s
      = (Normal (r1, r2), s') ∧
    r1 ≠ r2 ∧ py_eq 1 (heap s') r1 r2 = Some true.
Proof.
  intros Hv. rewrite interface_twice_gt by done.
  eexists _, _, _. split; [reflexivity|]. split; [intros [=]; lia|].
  cbn [py_eq heap]. rewrite decide_False by lia.
  rewrite (lookup_app_offset _ _ 0 (length (heap s))) by lia.
  rewrite (lookup_app_offset _ _ 1 (S (length (heap s)))) by lia.
  cbn [lookup list_lookup ob_class ob_dict dataclass_of].
  rewrite decide_True by done.
  cbn [dc_fields Ok_fields fields_eq f_name].
  replace (Ok_dict (PyInt v) !! "response") with (Some (PyInt v)) by done.
  replace (Ok_dict (PyInt v) !! "error") with (Some PyNone) by done.
  replace (Ok_dict (PyInt v) !! "is_success") with (Some (PyBool true)) by done.
  cbn [py_eq eqb]. by rewrite Z.eqb_refl.
Qed.

(** On the failure path they never compare equal: each call builds its own
    [ValueError], and an exception is equal to itself only. *)
Lemma interface_failure_results_differ (v : Z) (s : state) (depth : nat) :
  v ≤ 10 →
  ∃ r1 r2 s',
    (r1 ← interface v; r2 ← interface v; mret (r1, r2)) s
      = (Normal (r1, r2), s') ∧
    py_eq (S depth) (heap s') r1 r2 = Some false.
Proof.
  intros Hv. rewrite interface_twice_le by done.
  eexists _, _, _. split; [reflexivity|].
  cbn [py_eq heap]. rewrite decide_False by lia.
  set (e2 := S (S (length (heap s)))). set (e1 := length (heap s)).
  set (h := heap s ++ _).
  assert (h !! e1 = Some (Object ClsValueError [] ∅)) as H0
    by (subst h; by rewrite (lookup_app_offset _ _ 0) by (subst e1; lia)).
  assert (h !! S e1 = Some (Object ClsErr [] (Err_dict (PyRef e1)))) as H1
    by (subst h; by rewrite (lookup_app_offset _ _ 1) by (subst e1; lia)).
  assert (h !! e2 = Some (Object ClsValueError [] ∅)) as H2
    by (subst h; by rewrite (lookup_app_offset _ _ 2) by (subst e2; lia)).
  assert (h !! S e2 = Some (Object ClsErr [] (Err_dict (PyRef e2)))) as H3
    by (subst h; by rewrite (lookup_app_offset _ _ 3) by (subst e2; lia)).
  rewrite H1, H3. cbn [ob_class ob_dict dataclass_of].
  rewrite decide_True by done.
  cbn [dc_fields Err_fields fields_eq f_name].
  replace (Err_dict (PyRef e1) !! "error") with (Some (PyRef e1)) by done.
  replace (Err_dict (PyRef e2) !! "error") with (Some (PyRef e2)) by done.
  assert (py_eq depth h (PyRef e1) (PyRef e2) = Some false) as ->; [|done].
  destruct depth; cbn [py_eq]; rewrite decide_False by (subst e1 e2; lia);
    by rewrite H0, H2.
Qed.
